(** * OlivaTransfer: the RSS fetcher and parser [RSSapi]

    A shallow embedding of [src/OlivaTransfer/app.py].  The class [RSSapi]
    keeps five attributes ([rss_source], [target], [guids], [data_raw],
    [data]); its methods mutate them in place, print to standard output,
    talk to the network through [requests] and parse XML through
    [xml.etree.ElementTree].  Methods are embedded in a state-and-exception
    monad whose state survives a raised exception, as the attributes of a
    Python object do. *)

From Stdlib Require Import String List ZArith Lia DecimalString.
Import ListNotations.
Set Warnings "-register-all".
Local Open Scope string_scope.
Local Open Scope list_scope.

(** ** Python values, exceptions and dictionaries *)

Module Py.

(** The exceptions that the methods of [RSSapi] can let escape.
    [RequestException] stands for whatever [requests.request] raises
    (timeout, DNS failure, refused connection, ...), [ParseError] for
    [xml.etree.ElementTree.ParseError]. *)
Inductive exn : Type :=
| TypeError
| KeyError
| ParseError
| RequestException (reason : string).

Inductive result (A : Type) : Type :=
| Ok (a : A)
| Raise (e : exn).
Arguments Ok {A} a.
Arguments Raise {A} e.

(** A computation over a mutable state [S]: the state is returned in both
    outcomes, since an exception does not roll back earlier mutations. *)
Definition M (S A : Type) : Type := S -> result A * S.

Definition ret {S A} (a : A) : M S A := fun s => (Ok a, s).

Definition raise {S A} (e : exn) : M S A := fun s => (Raise e, s).

Definition bind {S A B} (m : M S A) (k : A -> M S B) : M S B :=
  fun s =>
    match m s with
    | (Ok a, s') => k a s'
    | (Raise e, s') => (Raise e, s')
    end.

Definition get {S} : M S S := fun s => (Ok s, s).

Definition modify {S} (f : S -> S) : M S unit := fun s => (Ok tt, f s).

Definition lift {S A} (r : result A) : M S A := fun s => (r, s).

(** A [dict] with [str] keys, kept in insertion order (the order in which
    [items()] yields the entries).  Keys are unique in a well-formed
    dictionary. *)
Definition dict (V : Type) : Type := list (string * V).

Definition keys {V} (d : dict V) : list string := map fst d.

Definition wf {V} (d : dict V) : Prop := NoDup (keys d).

Definition len {V} (d : dict V) : nat := length d.

(** [d.get(k)], with [None] for a missing key. *)
Fixpoint lookup {V} (d : dict V) (k : string) : option V :=
  match d with
  | [] => None
  | (k', v) :: d' => if String.eqb k' k then Some v else lookup d' k
  end.

(** [d[k]]: raises [KeyError] on a missing key. *)
Definition getitem {V} (d : dict V) (k : string) : result V :=
  match lookup d k with
  | Some v => Ok v
  | None => Raise KeyError
  end.

(** [d[k] = v]: overwrites in place, or appends a new entry. *)
Fixpoint setitem {V} (d : dict V) (k : string) (v : V) : dict V :=
  match d with
  | [] => [(k, v)]
  | (k', v') :: d' =>
      if String.eqb k' k then (k', v) :: d' else (k', v') :: setitem d' k v
  end.

(** [str(n)] for an [int]. *)
Definition str_of_int (n : Z) : string := NilZero.string_of_int (Z.to_int n).

(** [t in s] for two [str]: [t] occurs in [s] as a substring. *)
Fixpoint substring_of (t s : string) : bool :=
  String.prefix t s
  || match s with
     | EmptyString => false
     | String _ s' => substring_of t s'
     end.

End Py.
Import Py.

Declare Scope py_scope.
Delimit Scope py_scope with py.
Notation "x <- m ;; k" := (bind m (fun x => k))
  (at level 61, m at next level, right associativity) : py_scope.
Notation "m ;; k" := (bind m (fun _ => k))
  (at level 61, right associativity) : py_scope.
Local Open Scope py_scope.

(** ** The part of [xml.etree.ElementTree] that [parse] uses *)

Module ET.

(** An [Element]: its tag, its [text] attribute ([None] when the element
    holds no character data before its first child) and its children in
    document order.  Attributes and tails are not read by the program. *)
Inductive Element : Type :=
| Elem (tag : string) (text : option string) (children : list Element).

Definition tag (e : Element) : string :=
  match e with Elem t _ _ => t end.

Definition text (e : Element) : option string :=
  match e with Elem _ x _ => x end.

Definition children (e : Element) : list Element :=
  match e with Elem _ _ cs => cs end.

(** [e.iter()]: the element and all its descendants, in document order. *)
Fixpoint iter (e : Element) : list Element :=
  match e with
  | Elem _ _ cs =>
      e :: (fix iter_all (l : list Element) : list Element :=
              match l with
              | [] => []
              | c :: l' => iter c ++ iter_all l'
              end) cs
  end.

(** [e.findall('.//' + t)]: every descendant of [e] (not [e] itself) whose
    tag is [t], at any depth, in document order. *)
Definition findall_descendants (t : string) (e : Element) : list Element :=
  filter (fun c => String.eqb (tag c) t) (flat_map iter (children e)).

(** [e.find(t)]: the first direct child of [e] whose tag is [t], or [None]. *)
Definition find (t : string) (e : Element) : option Element :=
  List.find (fun c => String.eqb (tag c) t) (children e).

End ET.
Import ET.

(** ** Values that flow through [parse] *)

(** The Python objects that the dynamically typed expressions of [parse]
    are applied to. *)
Inductive value : Type :=
| VNone
| VStr (s : string)
| VElement (e : Element)
| VDict (d : dict (option string)).

(** [f(args)]: none of [NoneType], [str], [Element] and [dict] defines
    [__call__], so calling an instance raises [TypeError]
    ("... object is not callable"). *)
Definition call (f : value) (args : list value) : result value :=
  match f with
  | VNone => Raise TypeError
  | VStr _ => Raise TypeError
  | VElement _ => Raise TypeError
  | VDict _ => Raise TypeError
  end.

(** [x in c] where [c] is a cursor value, a [str] or [None].  A [str]
    accepts only a [str] on the left ("'in <string>' requires string as
    left operand"); [None] is not a container at all. *)
Definition contains (c : option string) (x : value) : result bool :=
  match c with
  | None => Raise TypeError
  | Some s =>
      match x with
      | VStr t => Ok (substring_of t s)
      | _ => Raise TypeError
      end
  end.

(** [e] as a Python object: an [Element], or [None]. *)
Definition of_found (e : option Element) : value :=
  match e with
  | Some x => VElement x
  | None => VNone
  end.

(** The record appended to [items] for one [<item>].  A field holds what
    [.text] held: a [str], or [None] for an element without text. *)
Record FeedItem : Type := mkFeedItem {
  title : option string;
  link : option string;
  guid : option string;
  pubDate : option string;
  description : option string
}.

(** What [requests.request] returns, as far as [fetch] reads it. *)
Record Response : Type := mkResponse {
  status_code : Z;
  resp_text : string
}.

(** The attributes of an [RSSapi] instance.  [None] is Python's [None]. *)
Record RSSapi : Type := mkRSSapi {
  rss_source : option (dict string);
  target : option (dict (dict (list string)));
  guids : dict (option string);
  data_raw : option (dict string);
  data : option (dict (list FeedItem))
}.

(** [RSSapi.__init__]. *)
Definition init (rss_source : option (dict string))
    (target : option (dict (dict (list string))))
    (guids : dict (option string)) : RSSapi :=
  {| rss_source := rss_source;
     target := target;
     guids := guids;
     data_raw := None;
     data := None |}.

Definition set_guids (g : dict (option string)) (o : RSSapi) : RSSapi :=
  {| rss_source := rss_source o; target := target o; guids := g;
     data_raw := data_raw o; data := data o |}.

Definition set_data_raw (r : option (dict string)) (o : RSSapi) : RSSapi :=
  {| rss_source := rss_source o; target := target o; guids := guids o;
     data_raw := r; data := data o |}.

Definition set_data (d : option (dict (list FeedItem))) (o : RSSapi) : RSSapi :=
  {| rss_source := rss_source o; target := target o; guids := guids o;
     data_raw := data_raw o; data := d |}.

(** ** The methods of [RSSapi] *)

(** The arguments that [_request] hands to [requests.request]. *)
Record Request : Type := mkRequest {
  req_method : string;
  req_url : string;
  req_headers : dict string;
  req_timeout : Z
}.

(** The call on line 139: the method is ['GET'] whatever [method] was
    passed, the only header is the user agent, the timeout is ten seconds. *)
Definition get_request (url : string) : Request :=
  {| req_method := "GET";
     req_url := url;
     req_headers :=
       [("User-Agent",
         "Mozilla/5.0 (Windows NT 10.0; Win64; x64) AppleWebKit/537.36 (KHTML, like Gecko) Chrome/58.0.3029.110 Safari/537.3")];
     req_timeout := 10 |}.

Section Model.

(** The outside world: the state of the network, how it answers one HTTP
    request (a response, or an exception of [requests]), and the XML parser
    [ET.fromstring] ([None] where it raises [ParseError]). *)
Variable World : Type.
Variable http : Request -> World -> result Response * World.
Variable fromstring : string -> option Element.

(** The running program: the instance, what was printed, the network. *)
Record Sys : Type := mkSys {
  self : RSSapi;
  stdout : list string;
  net : World
}.

Definition on_self (f : RSSapi -> RSSapi) : M Sys unit :=
  modify (fun s => {| self := f (self s); stdout := stdout s; net := net s |}).

Definition print (line : string) : M Sys unit :=
  modify (fun s =>
    {| self := self s; stdout := stdout s ++ [line]; net := net s |}).

(** [RSSapi._request]: one [GET] with a fixed user agent and a timeout of
    ten seconds; whatever [requests.request] raises is not caught. *)
Definition _request (url : string) : M Sys Response :=
  fun s =>
    let (response, w) := http (get_request url) (net s) in
    (response, {| self := self s; stdout := stdout s; net := w |}).

(** The body of the [for] loop of [fetch] (lines 50-57), for one entry of
    [rss_source.items()]; [tmp_rss] is the dictionary under construction. *)
Definition fetch_body (rss_source : dict string) (platform url : string)
    (tmp_rss : dict string) : M Sys (dict string) :=
  u <- lift (getitem rss_source platform) ;;
  if negb (String.eqb u "") then
    print ("fetching RSS from " ++ url ++ "...") ;;
    response <- _request url ;;
    if (status_code response =? 200)%Z then
      print "request success" ;;
      ret (setitem tmp_rss platform (resp_text response))
    else
      print ("request failed with status code "
             ++ str_of_int (status_code response)) ;;
      ret tmp_rss
  else ret tmp_rss.

Fixpoint fetch_loop (rss_source : dict string) (entries : list (string * string))
    (tmp_rss : dict string) : M Sys (dict string) :=
  match entries with
  | [] => ret tmp_rss
  | (platform, url) :: rest =>
      tmp_rss' <- fetch_body rss_source platform url tmp_rss ;;
      fetch_loop rss_source rest tmp_rss'
  end.

(** [RSSapi.fetch] (lines 40-59). *)
Definition fetch (arg : option (dict string)) : M Sys (option (dict string)) :=
  s <- get ;;
  let effective :=
    match arg with
    | None => rss_source (self s)
    | Some m => Some m
    end in
  match effective with
  | None => ret None
  | Some src =>
      if Nat.eqb (len src) 0 then ret None
      else
        tmp_rss <- fetch_loop src src [] ;;
        on_self (set_data_raw (Some tmp_rss)) ;;
        ret (Some tmp_rss)
  end.

(** [item.find(name).text if item.find(name) is not None else ''] *)
Definition field (name : string) (item : Element) : option string :=
  match find name item with
  | Some e => text e
  | None => Some ""
  end.

(** Lines 76-87: the record built from one [<item>]. *)
Definition extract (item : Element) : FeedItem :=
  {| title := field "title" item;
     link := field "link" item;
     guid := field "guid" item;
     pubDate := field "pubDate" item;
     description := field "description" item |}.

(** The body of the inner [for] loop of [parse] (lines 74-88). *)
Definition parse_item (platform : string) (item : Element)
    (items : list FeedItem) : M Sys (list FeedItem) :=
  s <- get ;;
  cursor <- lift (getitem (guids (self s)) platform) ;;
  seen <- lift (contains cursor (of_found (find "guid" item))) ;;
  if seen : bool then ret items
  else
    let record := extract item in
    on_self (fun o => set_guids (setitem (guids o) platform (guid record)) o) ;;
    ret (items ++ [record]).

Fixpoint parse_items (platform : string) (found : list Element)
    (items : list FeedItem) : M Sys (list FeedItem) :=
  match found with
  | [] => ret items
  | item :: rest =>
      items' <- parse_item platform item items ;;
      parse_items platform rest items'
  end.

(** Lines 69-70: the test for a missing cursor and its initialisation. *)
Definition ensure_cursor (platform : string) : M Sys unit :=
  s <- get ;;
  known <- lift (call (VDict (guids (self s))) [VStr platform]) ;;
  match known with
  | VNone =>
      on_self (fun o => set_guids (setitem (guids o) platform (Some "")) o)
  | _ => ret tt
  end.

(** Lines 71-89: the payload of one source is parsed, its items are walked
    and the list of records is stored under the name of the source.  A
    [ParseError] of [ET.fromstring] is raised here and not caught. *)
Definition parse_payload (platform raw : string)
    (tmp_data : dict (list FeedItem)) : M Sys (dict (list FeedItem)) :=
  root <- lift (match fromstring raw with
                | Some e => Ok e
                | None => Raise ParseError
                end) ;;
  items <- parse_items platform (findall_descendants "item" root) [] ;;
  ret (setitem tmp_data platform items).

(** The body of the outer [for] loop of [parse] (lines 69-89). *)
Definition parse_source (platform raw : string)
    (tmp_data : dict (list FeedItem)) : M Sys (dict (list FeedItem)) :=
  ensure_cursor platform ;;
  parse_payload platform raw tmp_data.

Fixpoint parse_loop (entries : list (string * string))
    (tmp_data : dict (list FeedItem)) : M Sys (dict (list FeedItem)) :=
  match entries with
  | [] => ret tmp_data
  | (platform, raw) :: rest =>
      tmp_data' <- parse_source platform raw tmp_data ;;
      parse_loop rest tmp_data'
  end.

(** [RSSapi.parse] (lines 61-91). *)
Definition parse : M Sys (option (dict (list FeedItem))) :=
  s <- get ;;
  match data_raw (self s) with
  | None => ret None
  | Some raws =>
      if Nat.eqb (len raws) 0 then ret None
      else
        tmp_data <- parse_loop raws [] ;;
        on_self (set_data (Some tmp_data)) ;;
        ret (Some tmp_data)
  end.

End Model.

Arguments mkSys {World} _ _ _.
Arguments self {World} _.
Arguments stdout {World} _.
Arguments net {World} _.
Arguments on_self {World} f s.
Arguments print {World} line s.
Arguments _request {World} http url s.
Arguments fetch_body {World} http rss_source platform url tmp_rss s.
Arguments fetch_loop {World} http rss_source entries tmp_rss s.
Arguments fetch {World} http arg s.
Arguments parse_item {World} platform item items s.
Arguments parse_items {World} platform found items s.
Arguments ensure_cursor {World} platform s.
Arguments parse_payload {World} fromstring platform raw tmp_data s.
Arguments parse_source {World} fromstring platform raw tmp_data s.
Arguments parse_loop {World} fromstring entries tmp_data s.
Arguments parse {World} fromstring s.

(** ** A concrete world for running the methods *)

Module Demo.

(** The network state is the list of URLs requested so far. *)
Definition World : Type := list string.

Definition feed3 : string :=
  "<rss><channel><item><guid>g3</guid></item><item><guid>g2</guid></item><item><guid>g1</guid></item></channel></rss>".

Definition feed2 : string :=
  "<rss><channel><item><title>new</title><guid>n2</guid></item><item><title>old</title><guid>n1</guid></item></channel></rss>".

Definition feed_nodesc : string :=
  "<rss><channel><item><title>t</title><link>l</link><guid>g</guid><pubDate>d</pubDate></item></channel></rss>".

Definition feed_empty : string := "<rss><channel></channel></rss>".


Definition leaf (t x : string) : Element := Elem t (Some x) [].

Definition tree3 : Element :=
  Elem "rss" None
    [Elem "channel" None
       [Elem "item" None [leaf "guid" "g3"];
        Elem "item" None [leaf "guid" "g2"];
        Elem "item" None [leaf "guid" "g1"]]].

Definition tree2 : Element :=
  Elem "rss" None
    [Elem "channel" None
       [Elem "item" None [leaf "title" "new"; leaf "guid" "n2"];
        Elem "item" None [leaf "title" "old"; leaf "guid" "n1"]]].

Definition item_nodesc : Element :=
  Elem "item" None
    [leaf "title" "t"; leaf "link" "l"; leaf "guid" "g"; leaf "pubDate" "d"].

Definition tree_nodesc : Element :=
  Elem "rss" None [Elem "channel" None [item_nodesc]].

Definition tree_empty : Element := Elem "rss" None [Elem "channel" None []].

(** [ET.fromstring] on the documents above; [broken] and every other text
    stand for documents that are not well formed. *)
Definition fromstring (raw : string) : option Element :=
  if String.eqb raw feed3 then Some tree3
  else if String.eqb raw feed2 then Some tree2
  else if String.eqb raw feed_nodesc then Some tree_nodesc
  else if String.eqb raw feed_empty then Some tree_empty
  else None.

(** A network in which [http://down/rss] times out, [http://busy/rss]
    answers 503, [http://nc/rss] answers 204, and two feeds answer 200. *)
Definition answer (url : string) : result Response :=
  if String.eqb url "http://a/rss" then Ok (mkResponse 200 feed3)
  else if String.eqb url "http://b/rss" then Ok (mkResponse 200 feed2)
  else if String.eqb url "http://busy/rss" then Ok (mkResponse 503 "")
  else if String.eqb url "http://nc/rss" then Ok (mkResponse 204 "")
  else Raise (RequestException "timed out").

Definition http (r : Request) (w : World) : result Response * World :=
  (answer (req_url r), w ++ [req_url r]).

(** A freshly constructed instance in a silent world. *)
Definition start (rss_source : option (dict string))
    (guids : dict (option string)) : Sys World :=
  mkSys (init rss_source None guids) [] [].

(** The same, with a raw-payload snapshot already in place. *)
Definition fetched (raws : dict string) (guids : dict (option string))
    : Sys World :=
  mkSys (set_data_raw (Some raws) (init None None guids)) [] [].

End Demo.

(** ** The configuration accessors and the script *)

Definition set_rss_source (r : option (dict string)) (o : RSSapi) : RSSapi :=
  {| rss_source := r; target := target o; guids := guids o;
     data_raw := data_raw o; data := data o |}.

Definition set_target (t : option (dict (dict (list string)))) (o : RSSapi)
    : RSSapi :=
  {| rss_source := rss_source o; target := t; guids := guids o;
     data_raw := data_raw o; data := data o |}.

(** A value of the dictionary that [export] returns: one of the four
    attributes it can expose. *)
Inductive exported : Type :=
| XData (d : option (dict (list FeedItem)))
| XSource (r : option (dict string))
| XTarget (t : option (dict (dict (list string))))
| XGuids (g : dict (option string)).

Section Accessors.

Variable World : Type.

(** [RSSapi.update] (lines 93-103): an argument that is [None] leaves its
    attribute alone. *)
Definition update (rss_source : option (dict string))
    (target : option (dict (dict (list string)))) : M (Sys World) unit :=
  match rss_source with
  | Some _ => on_self (set_rss_source rss_source)
  | None => ret tt
  end ;;
  match target with
  | Some _ => on_self (set_target target)
  | None => ret tt
  end ;;
  ret tt.

(** [RSSapi.export] (lines 105-128).  The four flags are the parameters
    [data], [rss_source], [target] and [guids] of the method. *)
Definition export (with_data with_rss_source with_target with_guids : bool)
    : M (Sys World) (dict exported) :=
  s <- get ;;
  let tmp_dict : dict exported := [] in
  let tmp_dict :=
    if with_data then setitem tmp_dict "data" (XData (data (self s)))
    else tmp_dict in
  let tmp_dict :=
    if with_rss_source
    then setitem tmp_dict "rss_source" (XSource (rss_source (self s)))
    else tmp_dict in
  let tmp_dict :=
    if with_target then setitem tmp_dict "target" (XTarget (target (self s)))
    else tmp_dict in
  let tmp_dict :=
    if with_guids then setitem tmp_dict "guids" (XGuids (guids (self s)))
    else tmp_dict in
  ret tmp_dict.

Variable http : Request -> World -> result Response * World.
Variable fromstring : string -> option Element.

(** [str] of the dictionary that [export] returns, as [print] applies it. *)
Variable repr : dict exported -> string.

(** The script under [if __name__ == "__main__"] (lines 142-156), started
    in the world [w] with nothing printed yet. *)
Definition main (w : World) : result unit * Sys World :=
  let rss_api :=
    init
      (Some [("bilibili_2267573",
              "https://rsshub.rssforever.com/bilibili/user/video/361737204")])
      (Some [("qq", [("groups", ["group1"; "group2"]);
                     ("users", ["user1"; "user2"])])])
      [] in
  (fetch http None ;;
   parse fromstring ;;
   shown <- export true true true true ;;
   print (repr shown))
    (mkSys rss_api [] w).

(** One call of a public method, as a client of the class issues it. *)
Inductive method : Type :=
| Fetch (arg : option (dict string))
| Parse
| Update (rss_source : option (dict string))
    (target : option (dict (dict (list string))))
| Export (with_data with_rss_source with_target with_guids : bool).

(** The state after one call; a client that catches the exception of a
    call goes on with the instance as the call left it. *)
Definition invoke (m : method) (s : Sys World) : Sys World :=
  match m with
  | Fetch arg => snd (fetch http arg s)
  | Parse => snd (parse fromstring s)
  | Update r t => snd (update r t s)
  | Export d r t g => snd (export d r t g s)
  end.

Definition invoke_all (calls : list method) (s : Sys World) : Sys World :=
  fold_left (fun st m => invoke m st) calls s.

End Accessors.

Arguments update {World} rss_source target s.
Arguments export {World} with_data with_rss_source with_target with_guids s.
Arguments main {World} http fromstring repr w.
Arguments invoke {World} http fromstring m s.
Arguments invoke_all {World} http fromstring calls s.

(** ** Networks whose answers depend on the request only *)

(** A network that answers by [answer] and records every request. *)
Definition logging_http (answer : Request -> result Response)
    (rq : Request) (w : list Request) : result Response * list Request :=
  (answer rq, w ++ [rq]).

(** The URLs that a pass over [entries] is expected to request: those of
    the enabled sources, in order, up to the first request that raises. *)
Fixpoint requested (answer : Request -> result Response)
    (entries : dict string) : list string :=
  match entries with
  | [] => []
  | (_, u) :: rest =>
      if String.eqb u "" then requested answer rest
      else
        match answer (get_request u) with
        | Ok _ => u :: requested answer rest
        | Raise _ => [u]
        end
  end.

(** The payload that a pass over [entries] is expected to build: the text
    of every enabled source answered with status 200, in order. *)
Definition payload_of (answer : Request -> result Response)
    (entries : dict string) : dict string :=
  flat_map
    (fun entry : string * string =>
       if String.eqb (snd entry) "" then []
       else
         match answer (get_request (snd entry)) with
         | Ok r =>
             if (status_code r =? 200)%Z then [(fst entry, resp_text r)]
             else []
         | Raise _ => []
         end)
    entries.

(** ** Dictionaries *)

Section DictFacts.

Context {V : Type}.

Lemma lookup_setitem_same (d : dict V) (k : string) (v : V) :
  lookup (setitem d k v) k = Some v.
Proof.
  induction d as [|[k' v'] d IH]; simpl.
  - now rewrite String.eqb_refl.
  - destruct (String.eqb k' k) eqn:E; simpl; rewrite E; auto.
Qed.

Lemma lookup_setitem_other (d : dict V) (k k' : string) (v : V) :
  k <> k' -> lookup (setitem d k v) k' = lookup d k'.
Proof.
  intros Hne. induction d as [|[k0 v0] d IH]; simpl.
  - destruct (String.eqb_spec k k'); [contradiction | reflexivity].
  - destruct (String.eqb_spec k0 k) as [->|Hk]; simpl.
    + destruct (String.eqb_spec k k'); [contradiction | reflexivity].
    + now rewrite IH.
Qed.

Lemma lookup_not_in (d : dict V) (k : string) :
  ~ In k (keys d) -> lookup d k = None.
Proof.
  induction d as [|[k' v'] d IH]; simpl; intros Hn; [reflexivity|].
  destruct (String.eqb_spec k' k) as [->|_]; [tauto | apply IH; tauto].
Qed.

Lemma lookup_app_entry (pre post : dict V) (k : string) (v : V) :
  wf (pre ++ (k, v) :: post) -> lookup (pre ++ (k, v) :: post) k = Some v.
Proof.
  unfold wf, keys. induction pre as [|[k' v'] pre IH]; simpl; intros Hwf.
  - now rewrite String.eqb_refl.
  - inversion Hwf as [|? ? Hnotin Hrest]; subst.
    destruct (String.eqb_spec k' k) as [->|_]; [|now apply IH].
    exfalso. apply Hnotin. rewrite map_app, in_app_iff. right. now left.
Qed.

End DictFacts.

(** ** How [parse] runs *)

Section ParseFacts.

Variable World : Type.
Variable fromstring : string -> option Element.

(** Line 69 raises before anything else happens to the source. *)
Lemma parse_source_raises (platform raw : string)
    (tmp_data : dict (list FeedItem)) (s : Sys World) :
  parse_source fromstring platform raw tmp_data s = (Raise TypeError, s).
Proof. reflexivity. Qed.

Lemma parse_loop_raises (entries : dict string)
    (tmp_data : dict (list FeedItem)) (s : Sys World) :
  len entries <> 0 ->
  parse_loop fromstring entries tmp_data s = (Raise TypeError, s).
Proof.
  destruct entries as [|[platform raw] rest]; simpl; [lia|].
  intros _. unfold bind. now rewrite parse_source_raises.
Qed.

Lemma parse_raises (s : Sys World) (raws : dict string) :
  data_raw (self s) = Some raws -> len raws <> 0 ->
  parse fromstring s = (Raise TypeError, s).
Proof.
  intros Hraw Hlen. unfold parse, bind, get. rewrite Hraw.
  destruct (Nat.eqb_spec (len raws) 0) as [E|_]; [contradiction|].
  now rewrite parse_loop_raises.
Qed.

Lemma parse_nothing (s : Sys World) :
  data_raw (self s) = None \/ data_raw (self s) = Some [] ->
  parse fromstring s = (Ok None, s).
Proof.
  intros [H|H]; unfold parse, bind, get; rewrite H; reflexivity.
Qed.

(** Line 74 cannot be passed either: its left operand is an [Element] or
    [None], never a [str], whatever the cursor is. *)
Lemma parse_item_raises (platform : string) (item : Element)
    (items : list FeedItem) (s : Sys World) :
  exists e, parse_item platform item items s = (Raise e, s).
Proof.
  unfold parse_item, bind, get, lift, getitem.
  destruct (lookup (guids (self s)) platform) as [[c|]|].
  - exists TypeError. now destruct (find "guid" item).
  - now exists TypeError.
  - now exists KeyError.
Qed.

End ParseFacts.

(** The record of an item without a [<description>] child: the missing
    field is the empty string and the others are the texts of the nodes. *)
Lemma extract_without_description :
  extract Demo.item_nodesc =
  mkFeedItem (Some "t") (Some "l") (Some "g") (Some "d") (Some "").
Proof. reflexivity. Qed.

(** A field whose node is present but empty is [None], not a string. *)
Lemma field_of_empty_node :
  field "title" (Elem "item" None [Elem "title" None []]) = None.
Proof. reflexivity. Qed.

(** ** How [fetch] runs *)

Section FetchFacts.

Variable World : Type.
Variable http : Request -> World -> result Response * World.

(** What the loop body does for an enabled source, by the outcome of its
    request. *)
Lemma fetch_body_answered (src : dict string) (p u : string)
    (tmp : dict string) (s : Sys World) (r : Response) (w : World) :
  getitem src p = Ok u -> u <> "" ->
  http (get_request u) (net s) = (Ok r, w) ->
  fetch_body http src p u tmp s =
  (Ok (if (status_code r =? 200)%Z then setitem tmp p (resp_text r) else tmp),
   mkSys (self s)
     (stdout s ++ [("fetching RSS from " ++ u ++ "...")%string]
        ++ [if (status_code r =? 200)%Z then "request success"
            else ("request failed with status code "
                  ++ str_of_int (status_code r))%string])
     w).
Proof.
  intros Hget Hu Hhttp. unfold fetch_body, bind, lift. rewrite Hget.
  destruct (String.eqb_spec u "") as [E|_]; [contradiction|]. simpl.
  unfold _request. simpl. rewrite Hhttp.
  destruct (status_code r =? 200)%Z; simpl; rewrite <- app_assoc; reflexivity.
Qed.

Lemma fetch_body_failed (src : dict string) (p u : string)
    (tmp : dict string) (s : Sys World) (e : exn) (w : World) :
  getitem src p = Ok u -> u <> "" ->
  http (get_request u) (net s) = (Raise e, w) ->
  fetch_body http src p u tmp s =
  (Raise e,
   mkSys (self s) (stdout s ++ [("fetching RSS from " ++ u ++ "...")%string]) w).
Proof.
  intros Hget Hu Hhttp. unfold fetch_body, bind, lift. rewrite Hget.
  destruct (String.eqb_spec u "") as [E|_]; [contradiction|]. simpl.
  unfold _request. simpl. now rewrite Hhttp.
Qed.

(** The loop never touches the attributes of the instance. *)
Lemma fetch_body_self (src : dict string) (p u : string)
    (tmp : dict string) (s : Sys World) :
  self (snd (fetch_body http src p u tmp s)) = self s.
Proof.
  unfold fetch_body, bind, lift.
  destruct (getitem src p) as [v|e]; [|reflexivity].
  destruct (negb (String.eqb v "")); [|reflexivity]. simpl.
  unfold _request. simpl.
  destruct (http (get_request u) (net s)) as [[r|e] w]; [|reflexivity].
  destruct (status_code r =? 200)%Z; reflexivity.
Qed.

Lemma fetch_loop_self (src : dict string) (entries : dict string) :
  forall (tmp : dict string) (s : Sys World),
    self (snd (fetch_loop http src entries tmp s)) = self s.
Proof.
  induction entries as [|[p u] rest IH]; intros tmp s; simpl; [reflexivity|].
  unfold bind. pose proof (fetch_body_self src p u tmp s) as Hb.
  destruct (fetch_body http src p u tmp s) as [[tmp'|e] s1]; simpl in *.
  - now rewrite IH.
  - exact Hb.
Qed.

(** Running the loop over a concatenation. *)
Lemma fetch_loop_app (src : dict string) (pre post : dict string) :
  forall (tmp : dict string) (s : Sys World),
    fetch_loop http src (pre ++ post) tmp s =
    match fetch_loop http src pre tmp s with
    | (Ok tmp1, s1) => fetch_loop http src post tmp1 s1
    | (Raise e, s1) => (Raise e, s1)
    end.
Proof.
  induction pre as [|[p u] pre IH]; intros tmp s; simpl; [reflexivity|].
  unfold bind.
  destruct (fetch_body http src p u tmp s) as [[tmp'|e] s1]; [apply IH|reflexivity].
Qed.

(** The loop writes only under the names it iterates over. *)
Lemma fetch_body_lookup_other (src : dict string) (p u k : string)
    (tmp tmp' : dict string) (s s' : Sys World) :
  fetch_body http src p u tmp s = (Ok tmp', s') -> p <> k ->
  lookup tmp' k = lookup tmp k.
Proof.
  unfold fetch_body, bind, lift. intros Hrun Hne.
  destruct (getitem src p) as [v|e]; [|discriminate].
  destruct (negb (String.eqb v "")); [|now inversion Hrun]. simpl in Hrun.
  unfold _request in Hrun. simpl in Hrun.
  destruct (http (get_request u) (net s)) as [[r|e] w]; [|discriminate].
  destruct (status_code r =? 200)%Z; inversion Hrun; subst;
    [now apply lookup_setitem_other | reflexivity].
Qed.

Lemma fetch_loop_lookup_other (src : dict string) (entries : dict string)
    (k : string) :
  ~ In k (keys entries) ->
  forall (tmp tmp' : dict string) (s s' : Sys World),
    fetch_loop http src entries tmp s = (Ok tmp', s') ->
    lookup tmp' k = lookup tmp k.
Proof.
  induction entries as [|[p u] rest IH]; simpl; intros Hnotin tmp tmp' s s' Hrun.
  - now inversion Hrun.
  - unfold bind in Hrun.
    destruct (fetch_body http src p u tmp s) as [[tmp1|e] s1] eqn:Hb;
      [|discriminate].
    rewrite (IH (fun H => Hnotin (or_intror H)) _ _ _ _ Hrun).
    apply (fetch_body_lookup_other _ _ _ _ _ _ _ _ Hb).
    intros ->. apply Hnotin. now left.
Qed.

Lemma fetch_nothing (arg : option (dict string)) (s : Sys World) :
  match arg with None => rss_source (self s) | Some m => Some m end = None
  \/ match arg with None => rss_source (self s) | Some m => Some m end = Some [] ->
  fetch http arg s = (Ok None, s).
Proof.
  intros [H|H]; unfold fetch, bind, get; rewrite H; reflexivity.
Qed.

End FetchFacts.

Lemma wf_entry_fresh {V : Type} (pre post : dict V) (k : string) (v : V) :
  wf (pre ++ (k, v) :: post) -> ~ In k (keys pre) /\ ~ In k (keys post).
Proof.
  unfold wf, keys. rewrite map_app. simpl. intros Hwf.
  apply NoDup_remove_2 in Hwf. rewrite in_app_iff in Hwf. tauto.
Qed.

(** ** The cursor lookup of [parse] *)

(** C4. Whenever the raw-payload snapshot is not empty, [parse] raises
    [TypeError] and leaves the whole state as it was: the cursor lookup
    [self.guids(platform)] calls a [dict], which is not callable, for the
    first source already.  This holds for every payload, every cursor store
    and every behaviour of the XML parser, which is never consulted; so
    [parse] returns no parsed result for a non-empty snapshot. *)
Theorem parse_nonempty_snapshot_raises_TypeError
    (World : Type) (fromstring : string -> option Element)
    (s : Sys World) (raws : dict string) :
  data_raw (self s) = Some raws -> len raws <> 0 ->
  (forall platform : string,
     call (VDict (guids (self s))) [VStr platform] = Raise TypeError)
  /\ parse fromstring s = (Raise TypeError, s)
  /\ (forall r s', parse fromstring s <> (Ok r, s')).
Proof.
  intros Hraw Hlen. split; [reflexivity|].
  rewrite (parse_raises World fromstring s raws Hraw Hlen).
  split; [reflexivity | discriminate].
Qed.

Lemma parse_nonempty_snapshot_raises_TypeError_witness :
  parse Demo.fromstring
    (Demo.fetched [("feedA", Demo.feed3)] [("feedA", Some "g1")]) =
  (Raise TypeError,
   Demo.fetched [("feedA", Demo.feed3)] [("feedA", Some "g1")]).
Proof.
  refine (proj1 (proj2 (parse_nonempty_snapshot_raises_TypeError
                          Demo.World Demo.fromstring
                          (Demo.fetched [("feedA", Demo.feed3)]
                             [("feedA", Some "g1")])
                          [("feedA", Demo.feed3)] _ _))).
  - reflexivity.
  - simpl. lia.
Defined.

(** ** Nothing to do *)

(** C7. [fetch] called without a mapping or with an empty one, on an
    instance whose registry is absent or empty, returns [None]; [parse] on an
    instance without a raw-payload snapshot (or with an empty one) returns
    [None].  Neither raises, and neither changes the state. *)
Theorem nothing_to_do_returns_None
    (World : Type) (http : Request -> World -> result Response * World)
    (fromstring : string -> option Element)
    (s : Sys World) (arg : option (dict string)) :
  (arg = None \/ arg = Some [] ->
   rss_source (self s) = None \/ rss_source (self s) = Some [] ->
   fetch http arg s = (Ok None, s))
  /\ (data_raw (self s) = None \/ data_raw (self s) = Some [] ->
      parse fromstring s = (Ok None, s)).
Proof.
  split.
  - intros Harg Hreg. apply fetch_nothing.
    destruct Harg as [->| ->]; [exact Hreg | now right].
  - apply parse_nothing.
Qed.

Lemma nothing_to_do_returns_None_witness :
  fetch Demo.http None (Demo.start None []) = (Ok None, Demo.start None [])
  /\ parse Demo.fromstring (Demo.start None [])
     = (Ok None, Demo.start None []).
Proof.
  split.
  - apply (proj1 (nothing_to_do_returns_None Demo.World Demo.http
                    Demo.fromstring (Demo.start None []) None));
      left; reflexivity.
  - apply (proj2 (nothing_to_do_returns_None Demo.World Demo.http
                    Demo.fromstring (Demo.start None []) None));
      left; reflexivity.
Defined.

(** ** The frame of [fetch] *)

(** C10. [fetch] leaves the registry, the destination routing, the cursor
    store and the parsed-result snapshot as they were.  The raw-payload
    snapshot is untouched while the loop runs, over any part of the mapping;
    it is assigned once, to the complete dictionary that [fetch] returns, and
    keeps its previous value when [fetch] returns [None] or raises. *)
Theorem fetch_replaces_snapshot_wholesale
    (World : Type) (http : Request -> World -> result Response * World)
    (arg : option (dict string)) (s : Sys World) :
  rss_source (self (snd (fetch http arg s))) = rss_source (self s)
  /\ target (self (snd (fetch http arg s))) = target (self s)
  /\ guids (self (snd (fetch http arg s))) = guids (self s)
  /\ data (self (snd (fetch http arg s))) = data (self s)
  /\ (forall src entries tmp,
        data_raw (self (snd (fetch_loop http src entries tmp s)))
        = data_raw (self s))
  /\ match fst (fetch http arg s) with
     | Ok (Some payload) =>
         data_raw (self (snd (fetch http arg s))) = Some payload
     | Ok None | Raise _ =>
         data_raw (self (snd (fetch http arg s))) = data_raw (self s)
     end.
Proof.
  assert (Hloop : forall src entries tmp,
             data_raw (self (snd (fetch_loop http src entries tmp s)))
             = data_raw (self s))
    by (intros; now rewrite fetch_loop_self).
  unfold fetch, bind, get.
  destruct (match arg with None => rss_source (self s) | Some m => Some m end)
    as [src|]; [|now repeat split].
  destruct (Nat.eqb (len src) 0); [now repeat split|].
  pose proof (fetch_loop_self World http src src [] s) as Hself.
  destruct (fetch_loop http src src [] s) as [[tmp|e] s1]; simpl in *;
    rewrite Hself; repeat split; auto.
Qed.

(** ** Failures while fetching *)

Lemma len_app_entry {V : Type} (pre post : dict V) (x : string * V) :
  Nat.eqb (len (pre ++ x :: post)) 0 = false.
Proof. unfold len. rewrite length_app. simpl. apply Nat.eqb_neq. lia. Qed.

(** C2, as the code has it.  [fetch] catches nothing: when the request of
    one enabled source raises, after the sources before it were fetched, the
    exception escapes [fetch].  Nothing is printed or requested for the
    sources after it (the network is left as the failed request left it),
    no payload is returned and the instance, its raw-payload snapshot
    included, is as it was before the call. *)
Theorem fetch_transport_failure_escapes
    (World : Type) (http : Request -> World -> result Response * World)
    (s s1 : Sys World) (pre post tmp1 : dict string) (p u : string)
    (e : exn) (w : World) :
  wf (pre ++ (p, u) :: post) -> u <> "" ->
  fetch_loop http (pre ++ (p, u) :: post) pre [] s = (Ok tmp1, s1) ->
  http (get_request u) (net s1) = (Raise e, w) ->
  fetch http (Some (pre ++ (p, u) :: post)) s =
  (Raise e,
   mkSys (self s)
     (stdout s1 ++ [("fetching RSS from " ++ u ++ "...")%string]) w).
Proof.
  intros Hwf Hu Hpre Hhttp. unfold fetch, bind, get.
  rewrite len_app_entry, fetch_loop_app, Hpre. simpl. unfold bind.
  assert (Hget : getitem (pre ++ (p, u) :: post) p = Ok u)
    by (unfold getitem; now rewrite lookup_app_entry).
  rewrite (fetch_body_failed World http _ p u tmp1 s1 e w Hget Hu Hhttp).
  pose proof (fetch_loop_self World http (pre ++ (p, u) :: post) pre [] s) as Hs.
  rewrite Hpre in Hs. simpl in Hs. now rewrite Hs.
Qed.

Lemma fetch_transport_failure_escapes_witness :
  fetch Demo.http
    (Some [("b", "http://b/rss"); ("down", "http://down/rss");
           ("a", "http://a/rss")])
    (Demo.start None []) =
  (Raise (RequestException "timed out"),
   mkSys (init None None [])
     ["fetching RSS from http://b/rss..."; "request success";
      "fetching RSS from http://down/rss..."]
     ["http://b/rss"; "http://down/rss"]).
Proof.
  refine (fetch_transport_failure_escapes Demo.World Demo.http
            (Demo.start None [])
            (mkSys (init None None [])
               ["fetching RSS from http://b/rss..."; "request success"]
               ["http://b/rss"])
            [("b", "http://b/rss")] [("a", "http://a/rss")]
            [("b", Demo.feed2)] "down" "http://down/rss"
            (RequestException "timed out")
            ["http://b/rss"; "http://down/rss"] _ _ _ _).
  - unfold wf. simpl. repeat constructor; simpl; intuition discriminate.
  - discriminate.
  - reflexivity.
  - reflexivity.
Defined.

(** The claim as written fails: with [down] timing out, the source [a]
    after it is never requested although its feed would answer 200, and no
    payload is returned. *)
Lemma fetch_aborts_on_timeout :
  Demo.answer "http://a/rss" = Ok (mkResponse 200 Demo.feed3)
  /\ fetch Demo.http
       (Some [("down", "http://down/rss"); ("a", "http://a/rss")])
       (Demo.start None []) =
     (Raise (RequestException "timed out"),
      mkSys (init None None [])
        ["fetching RSS from http://down/rss..."] ["http://down/rss"]).
Proof. split; reflexivity. Qed.

(** ** Which responses enter the payload *)

(** C8, as the code has it.  For an enabled source whose request is
    answered, after the sources before it were fetched: the body of the loop
    raises nothing, prints the outcome and the loop goes on with the sources
    after it; and in the payload that [fetch] returns, the source is present,
    with the text of the response, exactly when the status code is 200.
    Every other status code, 2xx or not, leaves the source out. *)
Theorem fetch_includes_exactly_status_200
    (World : Type) (http : Request -> World -> result Response * World)
    (s s1 : Sys World) (pre post tmp1 : dict string) (p u : string)
    (r : Response) (w : World) :
  wf (pre ++ (p, u) :: post) -> u <> "" ->
  fetch_loop http (pre ++ (p, u) :: post) pre [] s = (Ok tmp1, s1) ->
  http (get_request u) (net s1) = (Ok r, w) ->
  fetch_loop http (pre ++ (p, u) :: post) (pre ++ (p, u) :: post) [] s =
  fetch_loop http (pre ++ (p, u) :: post) post
    (if (status_code r =? 200)%Z then setitem tmp1 p (resp_text r) else tmp1)
    (mkSys (self s1)
       (stdout s1 ++ [("fetching RSS from " ++ u ++ "...")%string]
          ++ [if (status_code r =? 200)%Z then "request success"
              else ("request failed with status code "
                    ++ str_of_int (status_code r))%string])
       w)
  /\ (forall payload s',
        fetch http (Some (pre ++ (p, u) :: post)) s = (Ok (Some payload), s') ->
        (status_code r = 200%Z /\ lookup payload p = Some (resp_text r))
        \/ (status_code r <> 200%Z /\ lookup payload p = None)).
Proof.
  intros Hwf Hu Hpre Hhttp.
  assert (Hget : getitem (pre ++ (p, u) :: post) p = Ok u)
    by (unfold getitem; now rewrite lookup_app_entry).
  assert (Hstep :
    fetch_loop http (pre ++ (p, u) :: post) (pre ++ (p, u) :: post) [] s =
    fetch_loop http (pre ++ (p, u) :: post) post
      (if (status_code r =? 200)%Z then setitem tmp1 p (resp_text r) else tmp1)
      (mkSys (self s1)
         (stdout s1 ++ [("fetching RSS from " ++ u ++ "...")%string]
            ++ [if (status_code r =? 200)%Z then "request success"
                else ("request failed with status code "
                      ++ str_of_int (status_code r))%string])
         w)).
  { rewrite fetch_loop_app, Hpre. simpl. unfold bind.
    now rewrite (fetch_body_answered World http _ p u tmp1 s1 r w Hget Hu Hhttp). }
  split; [exact Hstep|].
  intros payload s' Hrun. unfold fetch, bind, get in Hrun.
  rewrite len_app_entry, Hstep in Hrun.
  destruct (wf_entry_fresh pre post p u Hwf) as [Hpre_fresh Hpost_fresh].
  match type of Hrun with
  | context [fetch_loop ?h ?src ?l ?t ?st] =>
      destruct (fetch_loop h src l t st) as [[tmp2|e] s2] eqn:Hpost
  end; [|discriminate].
  simpl in Hrun. inversion Hrun; subst payload.
  rewrite (fetch_loop_lookup_other World http _ post p Hpost_fresh _ _ _ _ Hpost).
  destruct (Z.eqb_spec (status_code r) 200) as [E|E].
  - left. split; [exact E | apply lookup_setitem_same].
  - right. split; [exact E|].
    now rewrite (fetch_loop_lookup_other World http _ pre p Hpre_fresh _ _ _ _ Hpre).
Qed.

Lemma fetch_includes_exactly_status_200_witness :
  (503 = 200 /\ lookup [("b", Demo.feed2); ("a", Demo.feed3)] "busy" = Some "")%Z
  \/ (503 <> 200
      /\ lookup [("b", Demo.feed2); ("a", Demo.feed3)] "busy" = None)%Z.
Proof.
  refine (proj2 (fetch_includes_exactly_status_200 Demo.World Demo.http
            (Demo.start None [])
            (mkSys (init None None [])
               ["fetching RSS from http://b/rss..."; "request success"]
               ["http://b/rss"])
            [("b", "http://b/rss")] [("a", "http://a/rss")]
            [("b", Demo.feed2)] "busy" "http://busy/rss"
            (mkResponse 503 "")
            ["http://b/rss"; "http://busy/rss"] _ _ _ _)
            [("b", Demo.feed2); ("a", Demo.feed3)]
            (mkSys
               (set_data_raw (Some [("b", Demo.feed2); ("a", Demo.feed3)])
                  (init None None []))
               ["fetching RSS from http://b/rss..."; "request success";
                "fetching RSS from http://busy/rss...";
                "request failed with status code 503";
                "fetching RSS from http://a/rss..."; "request success"]
               ["http://b/rss"; "http://busy/rss"; "http://a/rss"]) _).
  - unfold wf. simpl. repeat constructor; simpl; intuition discriminate.
  - discriminate.
  - reflexivity.
  - reflexivity.
  - reflexivity.
Defined.

(** The claim as written fails: 204 is a success status, yet the source
    answered with it is left out of the payload. *)
Lemma fetch_skips_status_204 :
  Demo.answer "http://nc/rss" = Ok (mkResponse 204 "")
  /\ (200 <= 204 < 300)%Z
  /\ fetch Demo.http (Some [("nc", "http://nc/rss")]) (Demo.start None []) =
     (Ok (Some []),
      mkSys (set_data_raw (Some []) (init None None []))
        ["fetching RSS from http://nc/rss...";
         "request failed with status code 204"]
        ["http://nc/rss"])
  /\ lookup (V := string) [] "nc" = None.
Proof. repeat split; try reflexivity; lia. Qed.

(** ** Malformed feeds *)




(** ** What [parse] does on the scenarios of the specification *)

(** C1. The payload of [feedA] lists the guids g3, g2, g1 in document
    order and the cursor is the empty string; the first [parse] raises
    [TypeError], returns no item and leaves the cursor empty. *)
Theorem parse_first_cycle_of_feedA :
  let s := Demo.fetched [("feedA", Demo.feed3)] [("feedA", Some "")] in
  Demo.fromstring Demo.feed3 = Some Demo.tree3
  /\ map guid (map extract (findall_descendants "item" Demo.tree3))
     = [Some "g3"; Some "g2"; Some "g1"]
  /\ parse Demo.fromstring s = (Raise TypeError, s)
  /\ lookup (guids (self (snd (parse Demo.fromstring s)))) "feedA"
     = Some (Some "").
Proof. repeat split. Qed.

(** C5. A source of the snapshot without a cursor entry: [parse] raises
    [TypeError] on its cursor lookup, and the cursor store still has no
    entry for it. *)
Theorem parse_leaves_cursor_store_without_entry :
  let s := Demo.fetched [("feedA", Demo.feed_empty)] [] in
  lookup (guids (self s)) "feedA" = None
  /\ parse Demo.fromstring s = (Raise TypeError, s)
  /\ lookup (guids (self (snd (parse Demo.fromstring s)))) "feedA" = None.
Proof. repeat split. Qed.

(** C6. A source with two items, both new: [parse] raises [TypeError] and
    the cursor is still the empty string, not the guid [n1] of the item
    that comes last in the document. *)
Theorem parse_does_not_advance_cursor :
  let s := Demo.fetched [("feedB", Demo.feed2)] [("feedB", Some "")] in
  map guid (map extract (findall_descendants "item" Demo.tree2))
  = [Some "n2"; Some "n1"]
  /\ parse Demo.fromstring s = (Raise TypeError, s)
  /\ lookup (guids (self (snd (parse Demo.fromstring s)))) "feedB"
     = Some (Some "").
Proof. repeat split. Qed.

(** C9. A feed whose only item has no [<description>]: [parse] raises
    [TypeError] and yields no record, and the parsed-result snapshot stays
    [None]. *)
Theorem parse_yields_no_record_without_description :
  let s := Demo.fetched [("feedA", Demo.feed_nodesc)] [] in
  findall_descendants "item" Demo.tree_nodesc = [Demo.item_nodesc]
  /\ find "description" Demo.item_nodesc = None
  /\ parse Demo.fromstring s = (Raise TypeError, s)
  /\ data (self (snd (parse Demo.fromstring s))) = None.
Proof. repeat split. Qed.

(** ** More on dictionaries *)

Lemma lookup_in_wf {V : Type} (d : dict V) (k : string) (v : V) :
  wf d -> In (k, v) d -> lookup d k = Some v.
Proof.
  intros Hwf Hin. apply in_split in Hin. destruct Hin as [pre [post ->]].
  now apply lookup_app_entry.
Qed.

Lemma lookup_in_first {V : Type} (d : dict V) (k : string) (v : V) :
  In (k, v) d -> exists v', lookup d k = Some v' /\ In (k, v') d.
Proof.
  induction d as [|[k0 v0] d IH]; simpl; [contradiction|].
  intros Hin. destruct (String.eqb_spec k0 k) as [->|Hne].
  - exists v0. split; [reflexivity | now left].
  - destruct Hin as [Heq|Hin]; [congruence|].
    destruct (IH Hin) as [v' [Hl Hi]]. exists v'. split; [exact Hl | now right].
Qed.

Lemma setitem_fresh {V : Type} (d : dict V) (k : string) (v : V) :
  ~ In k (keys d) -> setitem d k v = d ++ [(k, v)].
Proof.
  induction d as [|[k0 v0] d IH]; simpl; intros Hn; [reflexivity|].
  destruct (String.eqb_spec k0 k) as [->|_]; [tauto|].
  rewrite IH; [reflexivity | tauto].
Qed.

(** ** A whole pass of [fetch] *)

Section FetchPass.

Variable World : Type.
Variable http : Request -> World -> result Response * World.

Lemma fetch_body_disabled (src : dict string) (p u : string)
    (tmp : dict string) (s : Sys World) :
  getitem src p = Ok "" -> fetch_body http src p u tmp s = (Ok tmp, s).
Proof.
  intros Hget. unfold fetch_body, bind, lift. now rewrite Hget.
Qed.

Lemma fetch_loop_all_disabled (src entries : dict string) :
  (forall p u, In (p, u) entries -> getitem src p = Ok "") ->
  forall (tmp : dict string) (s : Sys World),
    fetch_loop http src entries tmp s = (Ok tmp, s).
Proof.
  induction entries as [|[p u] rest IH]; intros Hall tmp s; simpl;
    [reflexivity|].
  unfold bind. rewrite fetch_body_disabled by (apply (Hall p u); now left).
  apply IH. intros q v Hin. apply (Hall q v). now right.
Qed.

(** X1. A non-empty mapping in which every URL is the empty string:
    [fetch] makes no request and prints nothing, and it returns an empty
    dictionary, not [None], which also becomes the raw-payload snapshot. *)
Theorem fetch_all_disabled_returns_empty_dict
    (src : dict string) (s : Sys World) :
  len src <> 0 ->
  (forall p u, In (p, u) src -> u = "") ->
  fetch http (Some src) s =
  (Ok (Some []), mkSys (set_data_raw (Some []) (self s)) (stdout s) (net s)).
Proof.
  intros Hlen Hall. unfold fetch, bind, get.
  destruct (Nat.eqb_spec (len src) 0) as [E|_]; [contradiction|].
  rewrite fetch_loop_all_disabled; [reflexivity|].
  intros p u Hin. destruct (lookup_in_first src p u Hin) as [u' [Hl Hi]].
  unfold getitem. rewrite Hl. now rewrite (Hall p u' Hi).
Qed.

Lemma fetch_loop_returns (src entries : dict string) :
  (forall p u, In (p, u) entries -> getitem src p = Ok u) ->
  (forall p u w, In (p, u) entries -> u <> "" ->
     exists r, fst (http (get_request u) w) = Ok r) ->
  forall (tmp : dict string) (s : Sys World),
    exists tmp' s', fetch_loop http src entries tmp s = (Ok tmp', s').
Proof.
  induction entries as [|[p u] rest IH]; intros Hsrc Hok tmp s; simpl.
  - now exists tmp, s.
  - unfold bind.
    assert (Hget : getitem src p = Ok u) by (apply Hsrc; now left).
    assert (Hrest : forall tmp1 s1,
               exists tmp' s', fetch_loop http src rest tmp1 s1 = (Ok tmp', s')).
    { apply IH.
      - intros q v Hin. apply Hsrc. now right.
      - intros q v w Hin. apply (Hok q v w). now right. }
    destruct (String.eqb_spec u "") as [->|Hu].
    + rewrite fetch_body_disabled by exact Hget. apply Hrest.
    + destruct (Hok p u (net s) (or_introl eq_refl) Hu) as [r Hr].
      destruct (http (get_request u) (net s)) as [a w] eqn:Hhttp.
      simpl in Hr. subst a.
      rewrite (fetch_body_answered World http src p u tmp s r w Hget Hu Hhttp).
      apply Hrest.
Qed.

(** X2. When the mapping is well formed and not empty and no request of
    an enabled source raises, [fetch] returns a payload, and that payload is
    the new raw-payload snapshot. *)
Theorem fetch_returns_payload_when_no_request_raises
    (src : dict string) (s : Sys World) :
  wf src -> len src <> 0 ->
  (forall p u w, In (p, u) src -> u <> "" ->
     exists r, fst (http (get_request u) w) = Ok r) ->
  exists payload s',
    fetch http (Some src) s = (Ok (Some payload), s')
    /\ data_raw (self s') = Some payload.
Proof.
  intros Hwf Hlen Hok. unfold fetch, bind, get.
  destruct (Nat.eqb_spec (len src) 0) as [E|_]; [contradiction|].
  assert (Hsrc : forall p u, In (p, u) src -> getitem src p = Ok u).
  { intros p u Hin. unfold getitem.
    now rewrite (lookup_in_wf src p u Hwf Hin). }
  destruct (fetch_loop_returns src src Hsrc Hok [] s) as [tmp' [s' Hrun]].
  rewrite Hrun. simpl.
  now exists tmp', (mkSys (set_data_raw (Some tmp') (self s'))
                      (stdout s') (net s')).
Qed.

Variable answer : Request -> result Response.
Hypothesis http_answers : forall rq w, fst (http rq w) = answer rq.

Lemma fetch_loop_payload (src entries : dict string) :
  (forall p u, In (p, u) entries -> getitem src p = Ok u) ->
  forall (tmp tmp' : dict string) (s s' : Sys World),
    NoDup (keys tmp ++ keys entries) ->
    fetch_loop http src entries tmp s = (Ok tmp', s') ->
    tmp' = tmp ++ payload_of answer entries.
Proof.
  induction entries as [|[p u] rest IH]; intros Hsrc tmp tmp' s s' Hnd Hrun.
  - simpl in Hrun. inversion Hrun. now rewrite app_nil_r.
  - simpl in Hrun. unfold bind in Hrun.
    assert (Hget : getitem src p = Ok u) by (apply Hsrc; now left).
    assert (Hsrc' : forall q v, In (q, v) rest -> getitem src q = Ok v)
      by (intros q v Hin; apply Hsrc; now right).
    simpl in Hnd. unfold payload_of. simpl. fold (payload_of answer rest).
    destruct (String.eqb_spec u "") as [->|Hu].
    + rewrite fetch_body_disabled in Hrun by exact Hget.
      apply NoDup_remove_1 in Hnd. now apply (IH Hsrc' _ _ _ _ Hnd Hrun).
    + pose proof (http_answers (get_request u) (net s)) as Hans.
      destruct (http (get_request u) (net s)) as [a w] eqn:Hhttp.
      simpl in Hans. subst a.
      destruct (answer (get_request u)) as [r|e].
      * rewrite (fetch_body_answered World http src p u tmp s r w Hget Hu Hhttp)
          in Hrun.
        destruct (status_code r =? 200)%Z.
        -- pose proof (NoDup_remove_2 _ _ _ Hnd) as Hfresh.
           rewrite setitem_fresh in Hrun
             by (intros Hin; apply Hfresh, in_or_app; now left).
           assert (Hnd' : NoDup (keys (tmp ++ [(p, resp_text r)]) ++ keys rest))
             by (unfold keys; rewrite map_app; simpl; now rewrite <- app_assoc).
           rewrite (IH Hsrc' _ _ _ _ Hnd' Hrun). now rewrite <- app_assoc.
        -- apply NoDup_remove_1 in Hnd. now apply (IH Hsrc' _ _ _ _ Hnd Hrun).
      * rewrite (fetch_body_failed World http src p u tmp s e w Hget Hu Hhttp)
          in Hrun.
        discriminate.
Qed.

(** X3. On a network whose answer depends on the request only, the payload
    that [fetch] returns for a well-formed mapping holds exactly the enabled
    sources answered with status 200, each with the text of its response, in
    the order of the mapping. *)
Theorem fetch_payload_is_the_200_answers
    (src payload : dict string) (s s' : Sys World) :
  wf src ->
  fetch http (Some src) s = (Ok (Some payload), s') ->
  payload = payload_of answer src.
Proof.
  intros Hwf Hrun. unfold fetch, bind, get in Hrun.
  destruct (Nat.eqb (len src) 0); [discriminate|].
  destruct (fetch_loop http src src [] s) as [[tmp|e] s1] eqn:Hloop;
    [|discriminate].
  simpl in Hrun. inversion Hrun; subst payload.
  apply (fetch_loop_payload src src) with (tmp := []) (s := s) (s' := s1).
  - intros p u Hin. unfold getitem. now rewrite (lookup_in_wf src p u Hwf Hin).
  - exact Hwf.
  - exact Hloop.
Qed.

End FetchPass.

(** ** The requests of a pass *)

Lemma fetch_loop_trace (answer : Request -> result Response)
    (src entries : dict string) :
  (forall p u, In (p, u) entries -> getitem src p = Ok u) ->
  forall (tmp : dict string) (s : Sys (list Request)),
    net (snd (fetch_loop (logging_http answer) src entries tmp s)) =
    net s ++ map get_request (requested answer entries).
Proof.
  induction entries as [|[p u] rest IH]; intros Hsrc tmp s; simpl.
  - now rewrite app_nil_r.
  - unfold bind.
    assert (Hget : getitem src p = Ok u) by (apply Hsrc; now left).
    assert (Hsrc' : forall q v, In (q, v) rest -> getitem src q = Ok v)
      by (intros q v Hin; apply Hsrc; now right).
    destruct (String.eqb_spec u "") as [->|Hu].
    + rewrite fetch_body_disabled by exact Hget. now apply IH.
    + destruct (answer (get_request u)) as [r|e] eqn:Hans.
      * rewrite (fetch_body_answered _ (logging_http answer) src p u tmp s r
                   (net s ++ [get_request u]) Hget Hu)
          by (unfold logging_http; now rewrite Hans).
        rewrite (IH Hsrc'). simpl. now rewrite <- app_assoc.
      * rewrite (fetch_body_failed _ (logging_http answer) src p u tmp s e
                   (net s ++ [get_request u]) Hget Hu)
          by (unfold logging_http; now rewrite Hans).
        reflexivity.
Qed.

(** X4. On a network that records its requests, [fetch] over a well-formed
    mapping issues one request per enabled source, in the order of the
    mapping, each a [GET] with the fixed user agent and a timeout of ten
    seconds; it issues none for a source whose URL is empty, and none after
    the first request that raises. *)
Theorem fetch_requests_enabled_sources_in_order
    (answer : Request -> result Response)
    (src : dict string) (s : Sys (list Request)) :
  wf src ->
  net (snd (fetch (logging_http answer) (Some src) s)) =
  net s ++ map get_request (requested answer src).
Proof.
  intros Hwf. unfold fetch, bind, get.
  destruct (Nat.eqb_spec (len src) 0) as [E|_].
  - destruct src; [simpl; now rewrite app_nil_r | discriminate].
  - assert (Hsrc : forall p u, In (p, u) src -> getitem src p = Ok u).
    { intros p u Hin. unfold getitem.
      now rewrite (lookup_in_wf src p u Hwf Hin). }
    pose proof (fetch_loop_trace answer src src Hsrc [] s) as Htrace.
    destruct (fetch_loop (logging_http answer) src src [] s) as [[tmp|e] s1];
      exact Htrace.
Qed.

Lemma fetch_requests_enabled_sources_in_order_witness :
  net (snd (fetch (logging_http (fun rq => Demo.answer (req_url rq)))
              (Some [("b", "http://b/rss"); ("off", "");
                     ("down", "http://down/rss"); ("a", "http://a/rss")])
              (mkSys (init None None []) [] []))) =
  [get_request "http://b/rss"; get_request "http://down/rss"].
Proof.
  refine (fetch_requests_enabled_sources_in_order
            (fun rq => Demo.answer (req_url rq))
            [("b", "http://b/rss"); ("off", "");
             ("down", "http://down/rss"); ("a", "http://a/rss")]
            (mkSys (init None None []) [] []) _).
  unfold wf. simpl. repeat constructor; simpl; intuition discriminate.
Defined.

Lemma fetch_all_disabled_returns_empty_dict_witness :
  fetch Demo.http (Some [("a", ""); ("b", "")]) (Demo.start None []) =
  (Ok (Some []),
   mkSys (set_data_raw (Some []) (init None None [])) [] []).
Proof.
  refine (fetch_all_disabled_returns_empty_dict Demo.World Demo.http
            [("a", ""); ("b", "")] (Demo.start None []) _ _).
  - simpl. lia.
  - simpl. intros p u [H|[H|[]]]; inversion H; reflexivity.
Defined.

Lemma fetch_returns_payload_when_no_request_raises_witness :
  exists payload s',
    fetch Demo.http (Some [("a", "http://a/rss"); ("off", "")])
      (Demo.start None []) = (Ok (Some payload), s')
    /\ data_raw (self s') = Some payload.
Proof.
  refine (fetch_returns_payload_when_no_request_raises Demo.World Demo.http
            [("a", "http://a/rss"); ("off", "")] (Demo.start None []) _ _ _).
  - unfold wf. simpl. repeat constructor; simpl; intuition discriminate.
  - simpl. lia.
  - simpl. intros p u w [H|[H|[]]] Hu; inversion H; subst.
    + eexists. reflexivity.
    + contradiction.
Defined.

Lemma fetch_payload_is_the_200_answers_witness :
  [("b", Demo.feed2); ("a", Demo.feed3)] =
  payload_of (fun rq => Demo.answer (req_url rq))
    [("b", "http://b/rss"); ("busy", "http://busy/rss"); ("off", "");
     ("a", "http://a/rss")].
Proof.
  refine (fetch_payload_is_the_200_answers Demo.World Demo.http
            (fun rq => Demo.answer (req_url rq)) _
            [("b", "http://b/rss"); ("busy", "http://busy/rss"); ("off", "");
             ("a", "http://a/rss")]
            [("b", Demo.feed2); ("a", Demo.feed3)]
            (Demo.start None [])
            (mkSys
               (set_data_raw (Some [("b", Demo.feed2); ("a", Demo.feed3)])
                  (init None None []))
               ["fetching RSS from http://b/rss..."; "request success";
                "fetching RSS from http://busy/rss...";
                "request failed with status code 503";
                "fetching RSS from http://a/rss..."; "request success"]
               ["http://b/rss"; "http://busy/rss"; "http://a/rss"]) _ _).
  - reflexivity.
  - unfold wf. simpl. repeat constructor; simpl; intuition discriminate.
  - reflexivity.
Defined.

(** ** A polling cycle: [fetch], then [parse] *)

Section Cycle.

Variable World : Type.
Variable http : Request -> World -> result Response * World.
Variable fromstring : string -> option Element.

Lemma parse_state (s : Sys World) : snd (parse fromstring s) = s.
Proof.
  destruct (data_raw (self s)) as [[|entry raws]|] eqn:Hraw.
  - now rewrite parse_nothing by (now right).
  - now rewrite (parse_raises World fromstring s _ Hraw) by (simpl; lia).
  - now rewrite parse_nothing by (now left).
Qed.

Lemma fetch_self (arg : option (dict string)) (s : Sys World) :
  self (snd (fetch http arg s)) =
  match fst (fetch http arg s) with
  | Ok (Some payload) => set_data_raw (Some payload) (self s)
  | Ok None | Raise _ => self s
  end.
Proof.
  unfold fetch, bind, get.
  destruct (match arg with None => rss_source (self s) | Some m => Some m end)
    as [src|]; [|reflexivity].
  destruct (Nat.eqb (len src) 0); [reflexivity|].
  pose proof (fetch_loop_self World http src src [] s) as Hself.
  destruct (fetch_loop http src src [] s) as [[tmp|e] s1]; simpl in *;
    now rewrite Hself.
Qed.

(** X5. [parse] right after a [fetch] that returned a payload: it returns
    [None] when the payload is empty and raises [TypeError] when the payload
    holds at least one source; in both cases it changes nothing. *)
Theorem parse_after_fetch
    (arg : option (dict string)) (payload : dict string) (s s1 : Sys World) :
  fetch http arg s = (Ok (Some payload), s1) ->
  parse fromstring s1 =
  (if Nat.eqb (len payload) 0 then Ok None else Raise TypeError, s1).
Proof.
  intros Hrun. pose proof (fetch_self arg s) as Hself.
  rewrite Hrun in Hself. simpl in Hself.
  assert (Hraw : data_raw (self s1) = Some payload) by now rewrite Hself.
  destruct (Nat.eqb_spec (len payload) 0) as [E|E].
  - destruct payload; [|discriminate]. apply parse_nothing. now right.
  - now apply (parse_raises World fromstring s1 payload).
Qed.

(** X6. A whole cycle, whatever the network answers and whatever the
    arguments: the dictionary that [export] returns afterwards is the one it
    returned before, for every choice of flags.  In particular the exported
    [data] is never filled by a cycle. *)
Theorem cycle_leaves_export_unchanged
    (arg : option (dict string)) (d r t g : bool) (s : Sys World) :
  fst (export d r t g (snd (parse fromstring (snd (fetch http arg s))))) =
  fst (export d r t g s).
Proof.
  rewrite parse_state. unfold export, bind, get, ret. simpl.
  rewrite fetch_self.
  destruct (fst (fetch http arg s)) as [[payload|]|e]; reflexivity.
Qed.

Lemma invoke_keeps (m : method) (s : Sys World) :
  guids (self (invoke http fromstring m s)) = guids (self s)
  /\ data (self (invoke http fromstring m s)) = data (self s).
Proof.
  destruct m as [arg| |r t|d r t g]; simpl.
  - rewrite fetch_self.
    destruct (fst (fetch http arg s)) as [[payload|]|e]; now split.
  - rewrite parse_state. now split.
  - destruct r, t; now split.
  - now split.
Qed.

(** X7. Whatever sequence of [fetch], [parse], [update] and [export] calls
    a client makes, with whatever arguments and on whatever network, the
    cursor store and the parsed-result snapshot of the instance stay as they
    were at the start. *)
Theorem no_call_sequence_changes_guids_or_data
    (calls : list method) (s : Sys World) :
  guids (self (invoke_all http fromstring calls s)) = guids (self s)
  /\ data (self (invoke_all http fromstring calls s)) = data (self s).
Proof.
  revert s. induction calls as [|m calls IH]; intros s; simpl; [now split|].
  destruct (IH (invoke http fromstring m s)) as [Hg Hd].
  destruct (invoke_keeps m s) as [Hg' Hd'].
  fold (invoke_all http fromstring calls (invoke http fromstring m s)).
  rewrite Hg, Hd. now split.
Qed.

End Cycle.

Lemma parse_after_fetch_witness :
  parse Demo.fromstring
    (mkSys (set_data_raw (Some [("a", Demo.feed3)]) (init None None []))
       ["fetching RSS from http://a/rss..."; "request success"]
       ["http://a/rss"]) =
  (Raise TypeError,
   mkSys (set_data_raw (Some [("a", Demo.feed3)]) (init None None []))
     ["fetching RSS from http://a/rss..."; "request success"]
     ["http://a/rss"]).
Proof.
  refine (parse_after_fetch Demo.World Demo.http Demo.fromstring
            (Some [("a", "http://a/rss")]) [("a", Demo.feed3)]
            (Demo.start None []) _ _).
  reflexivity.
Defined.

(** ** [update] and [export] *)

Section AccessorFacts.

Variable World : Type.

(** X8. Two [update] calls in a row act as one: for each of the two
    attributes the later argument wins unless it is [None], in which case
    the earlier one stands.  [update] never raises. *)
Theorem update_twice (a1 a2 : option (dict string))
    (t1 t2 : option (dict (dict (list string)))) (s : Sys World) :
  (update a1 t1 ;; update a2 t2) s =
  update (match a2 with Some _ => a2 | None => a1 end)
         (match t2 with Some _ => t2 | None => t1 end) s
  /\ fst (update a1 t1 s) = Ok tt.
Proof.
  destruct a1, a2, t1, t2; split; reflexivity.
Qed.

(** X9. [export] leaves the state alone and returns a dictionary whose
    keys are those of the flags that are set, in the order [data],
    [rss_source], [target], [guids]; each key holds the attribute of that
    name as it is at the time of the call. *)
Theorem export_projects_flagged_attributes (d r t g : bool) (s : Sys World) :
  exists e : dict exported,
    export d r t g s = (Ok e, s)
    /\ keys e =
       (if d then ["data"] else []) ++ (if r then ["rss_source"] else [])
       ++ (if t then ["target"] else []) ++ (if g then ["guids"] else [])
    /\ lookup e "data" = (if d then Some (XData (data (self s))) else None)
    /\ lookup e "rss_source" =
       (if r then Some (XSource (rss_source (self s))) else None)
    /\ lookup e "target" =
       (if t then Some (XTarget (target (self s))) else None)
    /\ lookup e "guids" =
       (if g then Some (XGuids (guids (self s))) else None).
Proof.
  destruct d, r, t, g; eexists; repeat split; reflexivity.
Qed.

(** X10. What [update] was given is what [export] shows: after
    [update(a, t)], the exported [rss_source] is [a] and the exported
    [target] is [t], except that an argument [None] shows the value from
    before the call; so [update] cannot reset either attribute to [None]. *)
Theorem export_after_update (a : option (dict string))
    (t : option (dict (dict (list string)))) (d g : bool) (s : Sys World) :
  exists e : dict exported,
    (update a t ;; export d true true g) s = (Ok e, snd (update a t s))
    /\ lookup e "rss_source" =
       Some (XSource
               (match a with Some _ => a | None => rss_source (self s) end))
    /\ lookup e "target" =
       Some (XTarget
               (match t with Some _ => t | None => target (self s) end)).
Proof.
  destruct a, t, d, g; eexists; repeat split; reflexivity.
Qed.

End AccessorFacts.

(** ** The inner loop of [parse] and the extraction of one item *)

(** X11. The loop over the items of one source (lines 73-88) does not get
    past its first item: the membership test of line 74 has an [Element] or
    [None] on its left, so it raises [TypeError] whatever the cursor is, and
    the lookup of the cursor raises [KeyError] when the source has no entry.
    Nothing is appended and the cursor store is not touched. *)
Theorem parse_items_raises_on_first_item
    (World : Type) (platform : string) (found : list Element)
    (items : list FeedItem) (s : Sys World) :
  length found <> 0 ->
  parse_items platform found items s =
  (Raise (match lookup (guids (self s)) platform with
          | Some _ => TypeError
          | None => KeyError
          end), s).
Proof.
  destruct found as [|item rest]; simpl; [lia|]. intros _.
  unfold bind, parse_item, bind, get, lift, getitem.
  destruct (lookup (guids (self s)) platform) as [[c|]|];
    [destruct (find "guid" item)| |]; reflexivity.
Qed.

Lemma parse_items_raises_on_first_item_witness :
  parse_items "feedA" (findall_descendants "item" Demo.tree3) []
    (Demo.fetched [("feedA", Demo.feed3)] [("feedA", Some "")]) =
  (Raise TypeError,
   Demo.fetched [("feedA", Demo.feed3)] [("feedA", Some "")]).
Proof.
  refine (parse_items_raises_on_first_item Demo.World "feedA"
            (findall_descendants "item" Demo.tree3) []
            (Demo.fetched [("feedA", Demo.feed3)] [("feedA", Some "")]) _).
  simpl. lia.
Defined.

Section FindFacts.

Variable f : Element -> bool.

Lemma find_skip (cs1 cs2 : list Element) (d : Element) :
  f d = false -> List.find f (cs1 ++ d :: cs2) = List.find f (cs1 ++ cs2).
Proof.
  intros Hd. induction cs1 as [|c cs1 IH]; simpl.
  - now rewrite Hd.
  - now rewrite IH.
Qed.

Lemma find_absent (cs : list Element) :
  (forall c, In c cs -> f c = false) -> List.find f cs = None.
Proof.
  induction cs as [|c cs IH]; simpl; intros Hall; [reflexivity|].
  rewrite (Hall c (or_introl eq_refl)). apply IH. intros c' Hin.
  apply Hall. now right.
Qed.

Lemma find_first (cs1 cs2 : list Element) (d : Element) :
  (forall c, In c cs1 -> f c = false) -> f d = true ->
  List.find f (cs1 ++ d :: cs2) = Some d.
Proof.
  intros Hall Hd. induction cs1 as [|c cs1 IH]; simpl.
  - now rewrite Hd.
  - rewrite (Hall c (or_introl eq_refl)). apply IH. intros c' Hin.
    apply Hall. now right.
Qed.

End FindFacts.

(** X12. Extraction of one item (lines 76-87).  An item without a
    [description] child gets the description [''].  Putting a [description]
    child anywhere among its children changes the description to the text
    of that child and changes no other field of the record. *)
Theorem extract_description_only
    (tg : string) (x : option string) (cs1 cs2 : list Element) (d : Element) :
  (forall c, In c (cs1 ++ cs2) -> tag c <> "description") ->
  tag d = "description" ->
  description (extract (Elem tg x (cs1 ++ cs2))) = Some ""
  /\ extract (Elem tg x (cs1 ++ d :: cs2)) =
     {| title := title (extract (Elem tg x (cs1 ++ cs2)));
        link := link (extract (Elem tg x (cs1 ++ cs2)));
        guid := guid (extract (Elem tg x (cs1 ++ cs2)));
        pubDate := pubDate (extract (Elem tg x (cs1 ++ cs2)));
        description := text d |}.
Proof.
  intros Hnone Hd. unfold extract, field, find. simpl. split.
  - rewrite find_absent; [reflexivity|].
    intros c Hin. apply String.eqb_neq. now apply Hnone.
  - rewrite !find_skip by (rewrite Hd; reflexivity).
    rewrite (find_first _ cs1 cs2 d); [reflexivity | | now rewrite Hd].
    intros c Hin. apply String.eqb_neq. apply Hnone.
    apply in_or_app. now left.
Qed.

Lemma extract_description_only_witness :
  description
    (extract (Elem "item" None ([Demo.leaf "title" "t"] ++ [Demo.leaf "guid" "g"])))
  = Some ""
  /\ extract
       (Elem "item" None
          ([Demo.leaf "title" "t"] ++ Demo.leaf "description" "about"
             :: [Demo.leaf "guid" "g"])) =
     {| title :=
          title (extract (Elem "item" None
                            ([Demo.leaf "title" "t"] ++ [Demo.leaf "guid" "g"])));
        link :=
          link (extract (Elem "item" None
                           ([Demo.leaf "title" "t"] ++ [Demo.leaf "guid" "g"])));
        guid :=
          guid (extract (Elem "item" None
                           ([Demo.leaf "title" "t"] ++ [Demo.leaf "guid" "g"])));
        pubDate :=
          pubDate (extract (Elem "item" None
                              ([Demo.leaf "title" "t"] ++ [Demo.leaf "guid" "g"])));
        description := text (Demo.leaf "description" "about") |}.
Proof.
  refine (extract_description_only "item" None [Demo.leaf "title" "t"]
            [Demo.leaf "guid" "g"] (Demo.leaf "description" "about") _ _).
  - simpl. intros c [H|[H|[]]]; subst c; simpl; discriminate.
  - reflexivity.
Defined.

(** ** The script *)

(** X13. What the script does depends on the one request it makes.  When
    the feed answers 200 the script ends in [TypeError], raised by [parse],
    after printing the two lines of [fetch]: the export is never printed.
    When the feed answers with another status the script completes and
    prints an export whose [data] is [None] and whose [guids] is empty.
    When the request raises, the exception escapes the script. *)
Theorem main_outcome
    (World : Type) (http : Request -> World -> result Response * World)
    (fromstring : string -> option Element)
    (repr : dict exported -> string) (w : World) :
  match
    http (get_request
            "https://rsshub.rssforever.com/bilibili/user/video/361737204") w
  with
  | (Ok r, w1) =>
      if (status_code r =? 200)%Z then
        fst (main http fromstring repr w) = Raise TypeError
        /\ stdout (snd (main http fromstring repr w)) =
           ["fetching RSS from https://rsshub.rssforever.com/bilibili/user/video/361737204...";
            "request success"]
      else
        fst (main http fromstring repr w) = Ok tt
        /\ stdout (snd (main http fromstring repr w)) =
           ["fetching RSS from https://rsshub.rssforever.com/bilibili/user/video/361737204...";
            ("request failed with status code "
             ++ str_of_int (status_code r))%string;
            repr
              [("data", XData None);
               ("rss_source",
                XSource
                  (Some [("bilibili_2267573",
                          "https://rsshub.rssforever.com/bilibili/user/video/361737204")]));
               ("target",
                XTarget
                  (Some [("qq", [("groups", ["group1"; "group2"]);
                                 ("users", ["user1"; "user2"])])]));
               ("guids", XGuids [])]]
  | (Raise e, w1) =>
      fst (main http fromstring repr w) = Raise e
      /\ stdout (snd (main http fromstring repr w)) =
         ["fetching RSS from https://rsshub.rssforever.com/bilibili/user/video/361737204..."]
  end.
Proof.
  destruct (http _ w) as [[r|e] w1] eqn:Hhttp;
    unfold main, bind, fetch, get; cbn -[fetch_body parse]; unfold bind.
  - rewrite (fetch_body_answered World http
               [("bilibili_2267573", "https://rsshub.rssforever.com/bilibili/user/video/361737204")] "bilibili_2267573"
               "https://rsshub.rssforever.com/bilibili/user/video/361737204"
               [] _ r w1 eq_refl)
      by (discriminate || exact Hhttp).
    destruct (status_code r =? 200)%Z; split; reflexivity.
  - rewrite (fetch_body_failed World http
               [("bilibili_2267573", "https://rsshub.rssforever.com/bilibili/user/video/361737204")] "bilibili_2267573"
               "https://rsshub.rssforever.com/bilibili/user/video/361737204"
               [] _ e w1 eq_refl)
      by (discriminate || exact Hhttp).
    split; reflexivity.
Qed.
